(** * CamBANG provider contract: datatypes, error strings and interfaces

    A shallow embedding of
      - [src/provider/provider_contract_datatypes.h]
      - [src/provider/provider_error_string.h] / [provider_error_string.cpp]
      - [src/provider/icamera_provider.h]
    together with the properties the runtime specification states about
    them.

    Conventions.
      - [uint32_t], [uint64_t] and [size_t] values are naturals of type [N]
        together with their width bound.
      - Object, data and function pointers are addresses of type [ptr];
        [nullptr] is address 0, and [if (p)] tests [p] against it.
      - A [const char*] result is a [c_str]: [None] is the null pointer,
        [Some s] points at the NUL-terminated literal [s].
      - Struct declarations are recorded twice: once as Rocq records (the
        values), once as declaration tables (the member names and C++
        types the header spells out). The two interface classes have only
        pure virtual members, so they are recorded as declaration tables. *)

From Stdlib Require Import PeanoNat NArith List String Bool Lia.
Import ListNotations.

Local Open Scope string_scope.
Local Open Scope N_scope.

(** ** Machine-level values *)

Definition uint32_t := N.
Definition uint64_t := N.
Definition size_t := N.

Definition UINT32_MAX : N := 2 ^ 32 - 1.

Definition is_uint32 (v : N) : Prop := v <= UINT32_MAX.

(** Conversion of an integer to a 32-bit unsigned type wraps around. *)
Definition to_uint32 (v : N) : uint32_t := v mod 2 ^ 32.

Definition ptr := N.
Definition nullptr : ptr := 0.

(** [if (p)] on a pointer. *)
Definition is_set (p : ptr) : bool := negb (p =? nullptr).

Definition c_str := option string.

(** ** C++ types as they are written in the declarations *)

Inductive ctype : Type :=
| Void
| Char
| UInt8
| UInt32
| UInt64
| SizeT
| StdString
| Named (cls : string)          (* a class, struct or enum of namespace cambang *)
| Const (t : ctype)
| Ptr (t : ctype)
| Ref (t : ctype)
| Vector (t : ctype).

(** A data member of a struct. *)
Record field_decl := Field { f_name : string; f_type : ctype }.

(** A pure virtual member function of an interface class. *)
Record method_decl := Method {
  m_name : string;
  m_ret : ctype;
  m_params : list (string * ctype)
}.

Definition find_method (n : string) (ms : list method_decl) : option method_decl :=
  find (fun m => String.eqb (m_name m) n) ms.

(** ** [enum class ProviderError : uint32_t] *)

Module ProviderError.

(** The underlying type is fixed, so every 32-bit value is a value of
    the enumeration; the enumerators name some of them. *)
Definition t := uint32_t.

(** An enumerator list as written: a name and an optional initialiser. *)
Definition enum_decl := list (string * option N).

(** Values of the enumerators: an initialiser gives the value, an
    enumerator without one is its predecessor plus one, the first is 0. *)
Fixpoint enum_values (next : N) (d : enum_decl) : list (string * N) :=
  match d with
  | [] => []
  | (n, init) :: rest =>
      let v := match init with Some v => v | None => next end in
      (n, v) :: enum_values (v + 1) rest
  end.

Definition decl : enum_decl :=
  [ ("OK", Some 0);
    ("ERR_NOT_SUPPORTED", None);
    ("ERR_INVALID_ARGUMENT", None);
    ("ERR_BUSY", None);
    ("ERR_BAD_STATE", None);
    ("ERR_PLATFORM_CONSTRAINT", None);
    ("ERR_TRANSIENT_FAILURE", None);
    ("ERR_PROVIDER_FAILED", None);
    ("ERR_SHUTTING_DOWN", None) ].

Definition enumerators : list (string * N) := enum_values 0 decl.

(** The value an identifier denotes, if it is an enumerator. *)
Definition enumerator (name : string) : option t :=
  option_map snd (find (fun e => String.eqb (fst e) name) enumerators).

(** Whether a value is the value of some enumerator. *)
Definition named (v : t) : bool :=
  existsb (fun e => snd e =? v) enumerators.

Definition OK : t := 0.
Definition ERR_NOT_SUPPORTED : t := 1.
Definition ERR_INVALID_ARGUMENT : t := 2.
Definition ERR_BUSY : t := 3.
Definition ERR_BAD_STATE : t := 4.
Definition ERR_PLATFORM_CONSTRAINT : t := 5.
Definition ERR_TRANSIENT_FAILURE : t := 6.
Definition ERR_PROVIDER_FAILED : t := 7.
Definition ERR_SHUTTING_DOWN : t := 8.

(** [static_cast<ProviderError>(v)] *)
Definition static_cast (v : N) : t := to_uint32 v.

End ProviderError.

(** ** [const char* to_string(ProviderError)] *)

Definition to_string (error : ProviderError.t) : c_str :=
if error =? ProviderError.OK then Some "OK"
else if error =? ProviderError.ERR_NOT_SUPPORTED then Some "ERR_NOT_SUPPORTED"
else if error =? ProviderError.ERR_INVALID_ARGUMENT then Some "ERR_INVALID_ARGUMENT"
else if error =? ProviderError.ERR_BUSY then Some "ERR_BUSY"
else if error =? ProviderError.ERR_BAD_STATE then Some "ERR_BAD_STATE"
else if error =? ProviderError.ERR_PLATFORM_CONSTRAINT then Some "ERR_PLATFORM_CONSTRAINT"
else if error =? ProviderError.ERR_TRANSIENT_FAILURE then Some "ERR_TRANSIENT_FAILURE"
else if error =? ProviderError.ERR_PROVIDER_FAILED then Some "ERR_PROVIDER_FAILED"
else if error =? ProviderError.ERR_SHUTTING_DOWN then Some "ERR_SHUTTING_DOWN"
else Some "UNKNOWN_PROVIDER_ERROR".

(** ** [struct ProviderResult] *)

Module ProviderResult.

Record t := Build { code : ProviderError.t }.

(** Default member initialiser: [code = ProviderError::OK]. *)
Definition default : t := {| code := ProviderError.OK |}.

Definition ok (r : t) : bool := code r =? ProviderError.OK.

Definition success : t := Build ProviderError.OK.
Definition failure (c : ProviderError.t) : t := Build c.

Definition fields : list field_decl :=
  [ Field "code" (Named "ProviderError") ].

End ProviderResult.

(** ** [struct CameraEndpoint] *)

Module CameraEndpoint.

Record t := Build {
  hardware_id : string;  (* stable platform camera identifier *)
  name : string          (* optional human-readable label (may be empty) *)
}.

Definition fields : list field_decl :=
  [ Field "hardware_id" StdString;
    Field "name" StdString ].

End CameraEndpoint.

(** ** [struct FrameView] *)

Module FrameView.

Record t := Build {
  (* Correlation *)
  device_instance_id : uint64_t;
  stream_id : uint64_t;      (* 0 if this frame belongs only to a still capture *)
  capture_id : uint64_t;     (* 0 if this is a repeating stream frame *)
  (* Image metadata *)
  width : uint32_t;
  height : uint32_t;
  format_fourcc : uint32_t;
  (* Timing *)
  timestamp_ns : uint64_t;   (* platform timestamp; 0 if unknown *)
  (* Buffer *)
  data : ptr;
  size_bytes : size_t;
  (* Optional per-row stride (0 if tightly packed/unknown) *)
  stride_bytes : uint32_t;
  (* Release hook: [void ( * )(void* user, const FrameView* frame)] *)
  release : ptr;
  release_user : ptr
}.

(** The default member initialisers. *)
Definition default : t :=
  {| device_instance_id := 0;
     stream_id := 0;
     capture_id := 0;
     width := 0;
     height := 0;
     format_fourcc := 0;
     timestamp_ns := 0;
     data := nullptr;
     size_bytes := 0;
     stride_bytes := 0;
     release := nullptr;
     release_user := nullptr |}.

(** The sentinel readings the field comments give. *)
Definition capture_only (f : t) : bool := stream_id f =? 0.
Definition stream_frame (f : t) : bool := capture_id f =? 0.
Definition timestamp_unknown (f : t) : bool := timestamp_ns f =? 0.
Definition stride_packed_or_unknown (f : t) : bool := stride_bytes f =? 0.

(** *** Calling through the release hook

    The hook is provider code. Its effect is a transformer of whatever it
    can reach ([World]); the calls made through function pointers are
    logged in order. *)

Record call := Call {
  callee : ptr;      (* the function address called *)
  arg_user : ptr;    (* first argument, [void* user] *)
  arg_frame : ptr    (* second argument, [const FrameView* frame] *)
}.

Section Hook.

Variable World : Type.

(** [fn_body f user frame w]: the world after the function at address [f]
    ran with these arguments. *)
Variable fn_body : ptr -> ptr -> ptr -> World -> World.

Record state := State {
  calls : list call;
  world : World
}.

(** An indirect call [f(user, frame)]. *)
Definition invoke (f user frame : ptr) (s : state) : state :=
  {| calls := calls s ++ [Call f user frame];
     world := fn_body f user frame (world s) |}.

(** [void release_now() const], on the object [self] that lives at
    address [this]. *)
Definition release_now (this : ptr) (self : t) (s : state) : state :=
  if is_set (release self) then
    invoke (release self) (release_user self) this s
  else s.

End Hook.

Arguments calls {World} _.
Arguments world {World} _.
Arguments State {World} _ _.
Arguments invoke {World} fn_body f user frame s.
Arguments release_now {World} fn_body this self s.

(** How many logged calls passed frame address [frame] to function [f]. *)
Definition release_calls (f frame : ptr) (l : list call) : nat :=
  List.length
    (filter (fun c => (callee c =? f) && (arg_frame c =? frame))%bool l).

End FrameView.

(** ** [class IProviderCallbacks]: the provider-to-core callback sink

    The pure virtual member functions, in declaration order (the virtual
    destructor is not a callback). *)

Module IProviderCallbacks.

Definition methods : list method_decl :=
  [ (* Device lifecycle confirmations *)
    Method "on_device_opened" Void [("device_instance_id", UInt64)];
    Method "on_device_closed" Void [("device_instance_id", UInt64)];
    (* Stream lifecycle confirmations *)
    Method "on_stream_created" Void [("stream_id", UInt64)];
    Method "on_stream_destroyed" Void [("stream_id", UInt64)];
    Method "on_stream_started" Void [("stream_id", UInt64)];
    Method "on_stream_stopped" Void
      [("stream_id", UInt64); ("error_or_ok", Named "ProviderError")];
    (* Still capture lifecycle *)
    Method "on_capture_started" Void [("capture_id", UInt64)];
    Method "on_capture_completed" Void [("capture_id", UInt64)];
    Method "on_capture_failed" Void
      [("capture_id", UInt64); ("error", Named "ProviderError")];
    (* Frame delivery *)
    Method "on_frame" Void [("frame", Ref (Const (Named "FrameView")))];
    (* Error reporting (scoped) *)
    Method "on_device_error" Void
      [("device_instance_id", UInt64); ("error", Named "ProviderError")];
    Method "on_stream_error" Void
      [("stream_id", UInt64); ("error", Named "ProviderError")];
    (* Native object reporting (snapshot introspection) *)
    Method "on_native_object_created" Void
      [("info", Ref (Const (Named "NativeObjectCreateInfo")))];
    Method "on_native_object_destroyed" Void
      [("info", Ref (Const (Named "NativeObjectDestroyInfo")))] ].

Definition names : list string := map m_name methods.

(** The parameter types of a callback, by name. *)
Definition carries (callback : string) : option (list ctype) :=
  option_map (fun m => map snd (m_params m)) (find_method callback methods).

End IProviderCallbacks.

(** ** [class ICameraProvider]: the core-facing provider interface *)

Module ICameraProvider.

Definition methods : list method_decl :=
  [ Method "provider_name" (Ptr (Const Char)) [];
    Method "initialize" (Named "ProviderResult")
      [("callbacks", Ptr (Named "IProviderCallbacks"))];
    Method "enumerate_endpoints" (Named "ProviderResult")
      [("out_endpoints", Ref (Vector (Named "CameraEndpoint")))];
    Method "open_device" (Named "ProviderResult")
      [("hardware_id", Ref (Const StdString));
       ("device_instance_id", UInt64);
       ("root_id", UInt64)];
    Method "close_device" (Named "ProviderResult")
      [("device_instance_id", UInt64)];
    Method "create_stream" (Named "ProviderResult")
      [("req", Ref (Const (Named "StreamRequest")))];
    Method "destroy_stream" (Named "ProviderResult") [("stream_id", UInt64)];
    Method "start_stream" (Named "ProviderResult") [("stream_id", UInt64)];
    Method "stop_stream" (Named "ProviderResult") [("stream_id", UInt64)];
    Method "trigger_capture" (Named "ProviderResult")
      [("req", Ref (Const (Named "CaptureRequest")))];
    Method "abort_capture" (Named "ProviderResult") [("capture_id", UInt64)];
    Method "apply_camera_spec_patch" (Named "ProviderResult")
      [("hardware_id", Ref (Const StdString));
       ("new_camera_spec_version", UInt64);
       ("patch", Named "SpecPatchView")];
    Method "apply_imaging_spec_patch" (Named "ProviderResult")
      [("new_imaging_spec_version", UInt64);
       ("patch", Named "SpecPatchView")];
    Method "shutdown" (Named "ProviderResult") [] ].

Definition names : list string := map m_name methods.

(** The declared return type of a method, by name. *)
Definition returns (method : string) : option ctype :=
  option_map m_ret (find_method method methods).

End ICameraProvider.

(** ** The lists the specification gives

    These follow the wording of the specification, not the headers; the
    theorems below compare them with the declarations above. *)

Module Spec.

(** "code in {OK, ERR_NOT_SUPPORTED, ...}" *)
Definition provider_result_codes : list string :=
  [ "OK"; "ERR_NOT_SUPPORTED"; "ERR_INVALID_ARGUMENT"; "ERR_BUSY";
    "ERR_BAD_STATE"; "ERR_PLATFORM_CONSTRAINT"; "ERR_TRANSIENT_FAILURE";
    "ERR_PROVIDER_FAILED"; "ERR_SHUTTING_DOWN" ].

(** "Err(reason) with reason in {...}" of profile validation. *)
Definition validation_reasons : list string :=
  [ "ERR_INVALID_ARGUMENT"; "ERR_NOT_SUPPORTED"; "ERR_PROFILE_INCOMPATIBLE" ].

(** "Methods (core -> provider ...)" *)
Definition provider_methods : list string :=
  [ "provider_name"; "initialize"; "enumerate_endpoints"; "open_device";
    "close_device"; "create_stream"; "destroy_stream"; "start_stream";
    "stop_stream"; "trigger_capture"; "abort_capture";
    "apply_camera_spec_patch"; "apply_imaging_spec_patch"; "shutdown" ].

(** "Callback sink (provider -> core ...)" *)
Definition callbacks : list string :=
  [ "on_device_opened"; "on_device_closed";
    "on_stream_created"; "on_stream_destroyed";
    "on_stream_started"; "on_stream_stopped";
    "on_capture_started"; "on_capture_completed"; "on_capture_failed";
    "on_frame"; "on_device_error"; "on_stream_error";
    "on_native_object_created"; "on_native_object_destroyed" ].

(** "enumerate_endpoints() -> list<{hardware_id, name}>" *)
Definition endpoint_record : list string := [ "hardware_id"; "name" ].

End Spec.

(** Two lists name the same things when each contains the other. *)
Definition same_names (a b : list string) : Prop :=
  incl a b /\ incl b a.

(** ** Concrete runs of the release hook

    A world that only counts how many buffers went back to the provider,
    a hook at address [0x1000] that returns one, and a frame at address
    [0x200] of stream 7. *)

Module Samples.

Definition returned_buffers := nat.

Definition give_back (f user frame : ptr) (w : returned_buffers)
  : returned_buffers := S w.

Definition start : FrameView.state returned_buffers := FrameView.State [] 0%nat.

Definition hooked_frame : FrameView.t :=
  {| FrameView.device_instance_id := 1;
     FrameView.stream_id := 7;
     FrameView.capture_id := 0;
     FrameView.width := 640;
     FrameView.height := 480;
     FrameView.format_fourcc := 842094158;
     FrameView.timestamp_ns := 0;
     FrameView.data := 65536;
     FrameView.size_bytes := 460800;
     FrameView.stride_bytes := 0;
     FrameView.release := 4096;
     FrameView.release_user := 77 |}.

End Samples.

(** ** Reading the results of [to_string]

    What a log consumer does with the returned string: look the
    identifier up among the enumerators, test how it begins, check that
    it is a plain token. *)

(** The enumerator a returned string names; the null pointer names none. *)
Definition enumerator_of (r : c_str) : option ProviderError.t :=
  match r with
  | Some s => ProviderError.enumerator s
  | None => None
  end.

(** Whether a returned string begins with [p]. *)
Definition begins_with (p : string) (r : c_str) : bool :=
  match r with
  | Some s => String.prefix p s
  | None => false
  end.

(** An upper-case ASCII letter or an underscore. *)
Definition token_char (c : Ascii.ascii) : bool :=
  let n := Ascii.N_of_ascii c in
  ((65 <=? n) && (n <=? 90)) || (n =? 95).

(** A non-empty string of such characters. *)
Definition is_token (s : string) : bool :=
  negb (String.eqb s EmptyString) && forallb token_char (list_ascii_of_string s).

(** ** Releasing several frames

    Successive [release_now] calls, in list order, each on the frame
    [snd p] that lives at address [fst p]. *)

Module Release.

Section Sequence.

Variable World : Type.
Variable fn_body : ptr -> ptr -> ptr -> World -> World.

Definition each (frames : list (ptr * FrameView.t))
    (s : FrameView.state World) : FrameView.state World :=
  fold_left (fun st p => FrameView.release_now fn_body (fst p) (snd p) st)
            frames s.

(** The effect on the world of the call [release_now] makes for [p]. *)
Definition run (w : World) (p : ptr * FrameView.t) : World :=
  fn_body (FrameView.release (snd p)) (FrameView.release_user (snd p))
          (fst p) w.

(** [k] calls on one and the same frame. *)
Definition times (k : nat) (this : ptr) (self : FrameView.t)
    (s : FrameView.state World) : FrameView.state World :=
  each (repeat (this, self) k) s.

End Sequence.

Arguments each {World} fn_body frames s.
Arguments run {World} fn_body w p.
Arguments times {World} fn_body k this self s.

(** Whether the hook of a frame is set. *)
Definition hooked (p : ptr * FrameView.t) : bool :=
  is_set (FrameView.release (snd p)).

(** The call [release_now] makes for a hooked frame. *)
Definition call_of (p : ptr * FrameView.t) : FrameView.call :=
  FrameView.Call (FrameView.release (snd p))
                 (FrameView.release_user (snd p)) (fst p).

End Release.

(** ** Reading the callback declarations *)

Definition is_provider_error (t : ctype) : bool :=
  match t with
  | Named n => String.eqb n "ProviderError"
  | _ => false
  end.

Definition returns_void (m : method_decl) : bool :=
  match m_ret m with
  | Void => true
  | _ => false
  end.

(** A callback that reports an error: some parameter is a [ProviderError]. *)
Definition reports_error (m : method_decl) : bool :=
  existsb (fun p => is_provider_error (snd p)) (m_params m).

(** Exactly two parameters: a 64-bit id, then the [ProviderError]. *)
Definition scoped_error_signature (m : method_decl) : bool :=
  match m_params m with
  | [(_, UInt64); (_, t)] => is_provider_error t
  | _ => false
  end.

(** * Properties *)

(** ** The enumerators of [ProviderError] *)

Lemma enumerators_spelled_out :
  ProviderError.enumerators =
  [ ("OK", ProviderError.OK);
    ("ERR_NOT_SUPPORTED", ProviderError.ERR_NOT_SUPPORTED);
    ("ERR_INVALID_ARGUMENT", ProviderError.ERR_INVALID_ARGUMENT);
    ("ERR_BUSY", ProviderError.ERR_BUSY);
    ("ERR_BAD_STATE", ProviderError.ERR_BAD_STATE);
    ("ERR_PLATFORM_CONSTRAINT", ProviderError.ERR_PLATFORM_CONSTRAINT);
    ("ERR_TRANSIENT_FAILURE", ProviderError.ERR_TRANSIENT_FAILURE);
    ("ERR_PROVIDER_FAILED", ProviderError.ERR_PROVIDER_FAILED);
    ("ERR_SHUTTING_DOWN", ProviderError.ERR_SHUTTING_DOWN) ].
Proof. reflexivity. Qed.

(** Splits a membership in a spelled-out list into one goal per element. *)
Ltac each_member H :=
  repeat (destruct H as [H | H]; [ | ]); try contradiction.

Lemma enumerator_lookup (name : string) (c : ProviderError.t) :
  ProviderError.enumerator name = Some c <->
  In (name, c) ProviderError.enumerators.
Proof.
  unfold ProviderError.enumerator. split.
  - destruct (find _ _) as [[n v] |] eqn:F; simpl; [ | discriminate ].
    intros E. injection E as <-.
    apply find_some in F. destruct F as [I Q].
    simpl in Q. apply String.eqb_eq in Q. now subst.
  - rewrite enumerators_spelled_out. intros I.
    simpl in I. each_member I; injection I as <- <-; reflexivity.
Qed.

Lemma named_spec (v : ProviderError.t) :
  ProviderError.named v = true <-> In v (map snd ProviderError.enumerators).
Proof.
  unfold ProviderError.named. rewrite existsb_exists. split.
  - intros [e [I Q]]. apply N.eqb_eq in Q. subst v. now apply in_map.
  - intros I. apply in_map_iff in I. destruct I as [e [Q I]].
    exists e. split; [ exact I | now apply N.eqb_eq ].
Qed.

Lemma named_range (v : ProviderError.t) :
  ProviderError.named v = true <-> v <= 8.
Proof.
  unfold ProviderError.named. rewrite enumerators_spelled_out.
  cbv [existsb snd ProviderError.OK ProviderError.ERR_NOT_SUPPORTED
       ProviderError.ERR_INVALID_ARGUMENT ProviderError.ERR_BUSY
       ProviderError.ERR_BAD_STATE ProviderError.ERR_PLATFORM_CONSTRAINT
       ProviderError.ERR_TRANSIENT_FAILURE ProviderError.ERR_PROVIDER_FAILED
       ProviderError.ERR_SHUTTING_DOWN].
  rewrite !orb_true_iff, !N.eqb_eq. lia.
Qed.

Lemma unnamed_range (v : ProviderError.t) :
  ProviderError.named v = false <-> 9 <= v.
Proof.
  rewrite <- not_true_iff_false, named_range. lia.
Qed.

(** ** [to_string] *)

Lemma to_string_enumerator (name : string) (c : ProviderError.t) :
  In (name, c) ProviderError.enumerators -> to_string c = Some name.
Proof.
  rewrite enumerators_spelled_out. intros I. simpl in I.
  each_member I; injection I as <- <-; reflexivity.
Qed.

Lemma to_string_unnamed (e : ProviderError.t) :
  ProviderError.named e = false -> to_string e = Some "UNKNOWN_PROVIDER_ERROR".
Proof.
  rewrite unnamed_range. intros R. unfold to_string.
  cbv [ProviderError.OK ProviderError.ERR_NOT_SUPPORTED
       ProviderError.ERR_INVALID_ARGUMENT ProviderError.ERR_BUSY
       ProviderError.ERR_BAD_STATE ProviderError.ERR_PLATFORM_CONSTRAINT
       ProviderError.ERR_TRANSIENT_FAILURE ProviderError.ERR_PROVIDER_FAILED
       ProviderError.ERR_SHUTTING_DOWN].
  repeat match goal with
         | |- context [ e =? ?k ] =>
             destruct (N.eqb_spec e k) as [Q | _]; [ lia | ]
         end.
  reflexivity.
Qed.

Lemma to_string_named (e : ProviderError.t) :
  ProviderError.named e = true ->
  exists name, In (name, e) ProviderError.enumerators /\ to_string e = Some name.
Proof.
  rewrite named_spec, in_map_iff. intros [[n v] [Q I]]. simpl in Q. subst v.
  exists n. split; [ exact I | now apply to_string_enumerator ].
Qed.

(** ** Claims about the error codes *)

(** C1, as stated, fails: the enumeration has a fixed 32-bit underlying
    type, so a result can carry a value no enumerator names. Here the
    result is [failure(static_cast<ProviderError>(9))], whose code is a
    32-bit value outside the nine named ones. *)
Lemma result_code_outside_named_codes :
  exists r : ProviderResult.t,
    r = ProviderResult.failure (ProviderError.static_cast 9) /\
    is_uint32 (ProviderResult.code r) /\
    ~ In (ProviderResult.code r) (map snd ProviderError.enumerators) /\
    to_string (ProviderResult.code r) = Some "UNKNOWN_PROVIDER_ERROR".
Proof.
  eexists. split; [ reflexivity | ]. split; [ | split ].
  - unfold is_uint32. vm_compute. discriminate.
  - rewrite <- named_spec. vm_compute. discriminate.
  - reflexivity.
Qed.

(** C1, amended: [ProviderError] declares exactly the nine enumerators
    the specification lists for [ProviderResult], none added and none
    missing, with the values 0 to 8; a default-constructed result,
    [success()] and [failure(c)] for an enumerator [c] carry a code of
    this set, and a code is in the set
    exactly when it is at most 8 (the 32-bit values from 9 up are codes no
    enumerator names). *)
Theorem provider_error_declares_the_nine_codes :
  map fst ProviderError.enumerators = Spec.provider_result_codes /\
  NoDup (map fst ProviderError.enumerators) /\
  map snd ProviderError.enumerators = [0; 1; 2; 3; 4; 5; 6; 7; 8] /\
  (forall name, In name Spec.provider_result_codes <->
                exists c, ProviderError.enumerator name = Some c) /\
  In (ProviderResult.code ProviderResult.default)
     (map snd ProviderError.enumerators) /\
  In (ProviderResult.code ProviderResult.success)
     (map snd ProviderError.enumerators) /\
  (forall name c, ProviderError.enumerator name = Some c ->
     In (ProviderResult.code (ProviderResult.failure c))
        (map snd ProviderError.enumerators)) /\
  (forall r : ProviderResult.t,
     In (ProviderResult.code r) (map snd ProviderError.enumerators) <->
     ProviderResult.code r <= 8).
Proof.
  split; [ reflexivity | ].
  split; [ repeat constructor; simpl; intuition discriminate | ].
  split; [ reflexivity | ].
  split.
  { intros name. split.
    - intros I. change Spec.provider_result_codes
        with (map fst ProviderError.enumerators) in I.
      apply in_map_iff in I. destruct I as [[n c] [Q I]]. simpl in Q. subst n.
      exists c. now apply enumerator_lookup.
    - intros [c E]. apply enumerator_lookup in E.
      change Spec.provider_result_codes
        with (map fst ProviderError.enumerators).
      now apply (in_map fst) in E. }
  split; [ simpl; tauto | ].
  split; [ simpl; tauto | ].
  split.
  { intros name c E. apply enumerator_lookup in E.
    now apply (in_map snd) in E. }
  intros r. rewrite <- named_spec. apply named_range.
Qed.

Lemma provider_error_declares_the_nine_codes_witness :
  In (ProviderResult.code (ProviderResult.failure ProviderError.ERR_BUSY))
     (map snd ProviderError.enumerators).
Proof.
  destruct provider_error_declares_the_nine_codes
    as (_ & _ & _ & _ & _ & _ & F & _).
  apply (F "ERR_BUSY"). reflexivity.
Defined.

(** C2, as stated, fails: no enumerator of [ProviderError] denotes the
    validation reason [ERR_PROFILE_INCOMPATIBLE]. *)
Lemma profile_incompatible_not_an_enumerator :
  ~ (forall reason, In reason Spec.validation_reasons ->
       exists c, ProviderError.enumerator reason = Some c).
Proof.
  intros H. destruct (H "ERR_PROFILE_INCOMPATIBLE") as [c E].
  - simpl. tauto.
  - vm_compute in E. discriminate.
Qed.

(** C2, amended: of the three reasons profile validation can produce,
    [ERR_INVALID_ARGUMENT] and [ERR_NOT_SUPPORTED] are enumerators of
    [ProviderError] (and print under their own names); the core-specific
    [ERR_PROFILE_INCOMPATIBLE] is not an enumerator of [ProviderError]. *)
Theorem validation_reasons_among_provider_errors :
  ProviderError.enumerator "ERR_INVALID_ARGUMENT"
    = Some ProviderError.ERR_INVALID_ARGUMENT /\
  ProviderError.enumerator "ERR_NOT_SUPPORTED"
    = Some ProviderError.ERR_NOT_SUPPORTED /\
  ProviderError.enumerator "ERR_PROFILE_INCOMPATIBLE" = None /\
  (forall reason,
     In reason Spec.validation_reasons ->
     reason <> "ERR_PROFILE_INCOMPATIBLE" ->
     exists c, ProviderError.enumerator reason = Some c /\
               to_string c = Some reason).
Proof.
  repeat split; try reflexivity.
  intros reason I N. simpl in I. each_member I; subst reason.
  - exists ProviderError.ERR_INVALID_ARGUMENT. now split.
  - exists ProviderError.ERR_NOT_SUPPORTED. now split.
  - now contradiction N.
Qed.

Lemma validation_reasons_among_provider_errors_witness :
  exists c, ProviderError.enumerator "ERR_NOT_SUPPORTED" = Some c /\
            to_string c = Some "ERR_NOT_SUPPORTED".
Proof.
  destruct validation_reasons_among_provider_errors as (_ & _ & _ & R).
  apply R.
  - simpl. tauto.
  - discriminate.
Defined.

(** C8: [to_string] returns a non-null string for every value; each of
    the nine enumerators prints as its own identifier, so different
    enumerators print differently; every other value prints as
    [UNKNOWN_PROVIDER_ERROR]. *)
Theorem to_string_total_named_and_default :
  (forall e, exists s, to_string e = Some s) /\
  (forall e, to_string e <> None) /\
  (forall name c, ProviderError.enumerator name = Some c ->
     to_string c = Some name) /\
  map to_string (map snd ProviderError.enumerators)
    = map Some Spec.provider_result_codes /\
  (forall a b, ProviderError.named a = true -> ProviderError.named b = true ->
     to_string a = to_string b -> a = b) /\
  (forall e, ProviderError.named e = false ->
     to_string e = Some "UNKNOWN_PROVIDER_ERROR").
Proof.
  assert (T : forall e, exists s, to_string e = Some s).
  { intros e. destruct (ProviderError.named e) eqn:Nm.
    - destruct (to_string_named e Nm) as [n [_ Q]]. now exists n.
    - eexists. now apply to_string_unnamed. }
  split; [ exact T | ].
  split; [ intros e; destruct (T e) as [s ->]; discriminate | ].
  split.
  { intros name c E. apply enumerator_lookup in E.
    now apply to_string_enumerator. }
  split; [ reflexivity | ].
  split; [ | exact to_string_unnamed ].
  intros a b Na Nb Q.
  apply named_spec in Na. apply named_spec in Nb.
  rewrite enumerators_spelled_out in Na, Nb. simpl in Na, Nb.
  each_member Na; subst a; each_member Nb; subst b;
    first [ reflexivity | discriminate Q ].
Qed.

Lemma to_string_total_named_and_default_witness :
  to_string ProviderError.ERR_BUSY = Some "ERR_BUSY" /\
  to_string 9 = Some "UNKNOWN_PROVIDER_ERROR" /\
  to_string UINT32_MAX = Some "UNKNOWN_PROVIDER_ERROR".
Proof.
  destruct to_string_total_named_and_default as (_ & _ & Nm & _ & _ & U).
  split; [ apply Nm; reflexivity | ].
  split; apply U; reflexivity.
Defined.

(** C9: [failure(c).code] is [c], [success().code] is [OK], and [ok()]
    holds exactly when the code is [OK]; so [success().ok()] holds and
    [failure(c).ok()] holds exactly when [c] is [OK]. *)
Theorem provider_result_algebra :
  (forall c, ProviderResult.code (ProviderResult.failure c) = c) /\
  ProviderResult.code ProviderResult.success = ProviderError.OK /\
  (forall r, ProviderResult.ok r = true <->
             ProviderResult.code r = ProviderError.OK) /\
  ProviderResult.ok ProviderResult.success = true /\
  (forall c, ProviderResult.ok (ProviderResult.failure c) = true <->
             c = ProviderError.OK).
Proof.
  assert (K : forall r, ProviderResult.ok r = true <->
                        ProviderResult.code r = ProviderError.OK).
  { intros r. unfold ProviderResult.ok. apply N.eqb_eq. }
  split; [ reflexivity | ].
  split; [ reflexivity | ].
  split; [ exact K | ].
  split; [ reflexivity | ].
  intros c. apply (K (ProviderResult.failure c)).
Qed.

(** ** Claims about the interfaces *)

(** C3, as stated, fails: [provider_name] is declared to return
    [const char*], not [ProviderResult]. *)
Lemma provider_name_returns_a_c_string :
  ~ (forall method, In method Spec.provider_methods ->
       ICameraProvider.returns method = Some (Named "ProviderResult")).
Proof.
  intros H. specialize (H "provider_name"). simpl in H.
  assert (E : ICameraProvider.returns "provider_name"
              = Some (Named "ProviderResult")) by (apply H; tauto).
  vm_compute in E. discriminate.
Qed.

(** C3, amended: the provider interface declares exactly the methods the
    specification names; every one of them other than [provider_name]
    returns a [ProviderResult], and [provider_name] returns a
    [const char*]. *)
Theorem provider_methods_return_provider_result :
  ICameraProvider.names = Spec.provider_methods /\
  NoDup ICameraProvider.names /\
  ICameraProvider.returns "provider_name" = Some (Ptr (Const Char)) /\
  (forall method,
     In method Spec.provider_methods ->
     method <> "provider_name" ->
     ICameraProvider.returns method = Some (Named "ProviderResult")).
Proof.
  split; [ reflexivity | ].
  split; [ repeat constructor; simpl; intuition discriminate | ].
  split; [ reflexivity | ].
  intros method I N. simpl in I.
  each_member I; subst method; first [ reflexivity | now contradiction N ].
Qed.

Lemma provider_methods_return_provider_result_witness :
  ICameraProvider.returns "abort_capture" = Some (Named "ProviderResult").
Proof.
  destruct provider_methods_return_provider_result as (_ & _ & _ & R).
  apply R.
  - simpl. tauto.
  - discriminate.
Defined.

(** C4: the callback sink declares exactly the fourteen callbacks the
    specification lists; [on_stream_stopped] carries a [ProviderError]
    named [error_or_ok], [on_capture_failed] carries a [ProviderError]
    named [error], and [on_frame] carries a [FrameView]. *)
Theorem callback_sink_matches_spec :
  IProviderCallbacks.names = Spec.callbacks /\
  NoDup IProviderCallbacks.names /\
  same_names IProviderCallbacks.names Spec.callbacks /\
  option_map m_params (find_method "on_stream_stopped" IProviderCallbacks.methods)
    = Some [("stream_id", UInt64); ("error_or_ok", Named "ProviderError")] /\
  option_map m_params (find_method "on_capture_failed" IProviderCallbacks.methods)
    = Some [("capture_id", UInt64); ("error", Named "ProviderError")] /\
  IProviderCallbacks.carries "on_frame"
    = Some [Ref (Const (Named "FrameView"))].
Proof.
  split; [ reflexivity | ].
  split; [ repeat constructor; simpl; intuition discriminate | ].
  split; [ split; apply incl_refl | ].
  repeat split.
Qed.

(** C7: an endpoint record has exactly the two string members
    [hardware_id] and [name], as in the specification's result shape; it
    is determined by them, the name may be empty, and
    [enumerate_endpoints] fills a vector of such records. *)
Theorem endpoint_enumeration_shape :
  map f_name CameraEndpoint.fields = Spec.endpoint_record /\
  map f_type CameraEndpoint.fields = [StdString; StdString] /\
  (forall e : CameraEndpoint.t,
     e = CameraEndpoint.Build (CameraEndpoint.hardware_id e)
                              (CameraEndpoint.name e)) /\
  (forall id label,
     CameraEndpoint.hardware_id (CameraEndpoint.Build id label) = id /\
     CameraEndpoint.name (CameraEndpoint.Build id label) = label) /\
  (exists e, CameraEndpoint.name e = EmptyString) /\
  option_map m_params (find_method "enumerate_endpoints" ICameraProvider.methods)
    = Some [("out_endpoints", Ref (Vector (Named "CameraEndpoint")))].
Proof.
  split; [ reflexivity | ].
  split; [ reflexivity | ].
  split; [ intros [id label]; reflexivity | ].
  split; [ intros id label; split; reflexivity | ].
  split; [ exists (CameraEndpoint.Build "camA" EmptyString); reflexivity | ].
  reflexivity.
Qed.

(** ** Claims about [FrameView] *)

(** C6: in a default-constructed [FrameView] every integer member is 0
    and every pointer member is null, so it reads as capture-only
    ([stream_id] 0), as a stream frame ([capture_id] 0), with unknown
    timestamp and packed-or-unknown stride. *)
Theorem default_frame_view_is_all_sentinels :
  FrameView.device_instance_id FrameView.default = 0 /\
  FrameView.stream_id FrameView.default = 0 /\
  FrameView.capture_id FrameView.default = 0 /\
  FrameView.width FrameView.default = 0 /\
  FrameView.height FrameView.default = 0 /\
  FrameView.format_fourcc FrameView.default = 0 /\
  FrameView.timestamp_ns FrameView.default = 0 /\
  FrameView.size_bytes FrameView.default = 0 /\
  FrameView.stride_bytes FrameView.default = 0 /\
  FrameView.data FrameView.default = nullptr /\
  FrameView.release FrameView.default = nullptr /\
  FrameView.release_user FrameView.default = nullptr /\
  FrameView.capture_only FrameView.default = true /\
  FrameView.stream_frame FrameView.default = true /\
  FrameView.timestamp_unknown FrameView.default = true /\
  FrameView.stride_packed_or_unknown FrameView.default = true.
Proof. repeat split. Qed.

Section ReleaseHook.

Variable World : Type.
Variable fn_body : ptr -> ptr -> ptr -> World -> World.

Lemma is_set_spec (p : ptr) : is_set p = true <-> p <> nullptr.
Proof.
  unfold is_set. rewrite negb_true_iff. apply N.eqb_neq.
Qed.

Lemma release_calls_app (f frame : ptr) (l1 l2 : list FrameView.call) :
  FrameView.release_calls f frame (l1 ++ l2) =
  (FrameView.release_calls f frame l1 + FrameView.release_calls f frame l2)%nat.
Proof.
  unfold FrameView.release_calls. rewrite filter_app. apply length_app.
Qed.

(** C5: with the release hook set, [release_now] makes one call, to the
    stored function with the stored [release_user] and the address of
    this very frame; nothing else is called, and the world changes by
    that one call. *)
Theorem release_now_calls_hook_once
    (this : ptr) (self : FrameView.t) (s : FrameView.state World)
    (Hset : FrameView.release self <> nullptr) :
  let s' := FrameView.release_now fn_body this self s in
  FrameView.calls s' =
    (FrameView.calls s ++
     [FrameView.Call (FrameView.release self) (FrameView.release_user self) this])%list /\
  FrameView.world s' =
    fn_body (FrameView.release self) (FrameView.release_user self) this
            (FrameView.world s) /\
  List.length (FrameView.calls s') = S (List.length (FrameView.calls s)) /\
  FrameView.release_calls (FrameView.release self) this (FrameView.calls s') =
    S (FrameView.release_calls (FrameView.release self) this (FrameView.calls s)).
Proof.
  apply is_set_spec in Hset.
  unfold FrameView.release_now. rewrite Hset.
  unfold FrameView.invoke. simpl.
  split; [ reflexivity | ].
  split; [ reflexivity | ].
  split.
  - rewrite length_app. simpl. lia.
  - rewrite release_calls_app. unfold FrameView.release_calls at 2.
    simpl. rewrite !N.eqb_refl. simpl. lia.
Qed.

(** C10: with the release hook null, [release_now] calls nothing and
    leaves everything as it was. *)
Theorem release_now_without_hook_is_noop
    (this : ptr) (self : FrameView.t) (s : FrameView.state World)
    (Hnull : FrameView.release self = nullptr) :
  FrameView.release_now fn_body this self s = s /\
  FrameView.calls (FrameView.release_now fn_body this self s)
    = FrameView.calls s /\
  FrameView.world (FrameView.release_now fn_body this self s)
    = FrameView.world s.
Proof.
  unfold FrameView.release_now. rewrite Hnull. simpl. repeat split.
Qed.

End ReleaseHook.

Lemma release_now_calls_hook_once_witness :
  FrameView.release Samples.hooked_frame <> nullptr /\
  FrameView.calls
    (FrameView.release_now Samples.give_back 512 Samples.hooked_frame Samples.start)
    = [FrameView.Call 4096 77 512] /\
  FrameView.world
    (FrameView.release_now Samples.give_back 512 Samples.hooked_frame Samples.start)
    = 1%nat.
Proof.
  assert (Hset : FrameView.release Samples.hooked_frame <> nullptr)
    by discriminate.
  split; [ exact Hset | ].
  destruct (release_now_calls_hook_once Samples.returned_buffers
              Samples.give_back 512 Samples.hooked_frame Samples.start Hset)
    as (C & W & _ & _).
  split; [ exact C | exact W ].
Defined.

Lemma release_now_without_hook_is_noop_witness :
  FrameView.release FrameView.default = nullptr /\
  FrameView.release_now Samples.give_back 512 FrameView.default Samples.start
    = Samples.start.
Proof.
  split; [ reflexivity | ].
  apply (release_now_without_hook_is_noop Samples.returned_buffers
           Samples.give_back 512 FrameView.default Samples.start).
  reflexivity.
Defined.

(** * Further properties of the provider contract code *)

(** ** [to_string], read back *)

Lemma code_cases (e : ProviderError.t) :
  e = ProviderError.OK \/
  e = ProviderError.ERR_NOT_SUPPORTED \/
  e = ProviderError.ERR_INVALID_ARGUMENT \/
  e = ProviderError.ERR_BUSY \/
  e = ProviderError.ERR_BAD_STATE \/
  e = ProviderError.ERR_PLATFORM_CONSTRAINT \/
  e = ProviderError.ERR_TRANSIENT_FAILURE \/
  e = ProviderError.ERR_PROVIDER_FAILED \/
  e = ProviderError.ERR_SHUTTING_DOWN \/
  (ProviderError.named e = false /\
   to_string e = Some "UNKNOWN_PROVIDER_ERROR").
Proof.
  destruct (ProviderError.named e) eqn:Nm.
  - apply named_range in Nm.
    cbv [ProviderError.OK ProviderError.ERR_NOT_SUPPORTED
         ProviderError.ERR_INVALID_ARGUMENT ProviderError.ERR_BUSY
         ProviderError.ERR_BAD_STATE ProviderError.ERR_PLATFORM_CONSTRAINT
         ProviderError.ERR_TRANSIENT_FAILURE ProviderError.ERR_PROVIDER_FAILED
         ProviderError.ERR_SHUTTING_DOWN].
    lia.
  - do 9 right. split; [ reflexivity | now apply to_string_unnamed ].
Qed.

(** One goal per enumerator, with [e] replaced by it, and one for the
    values no enumerator names. *)
Ltac by_code e :=
  let U := fresh "Unnamed" in
  let T := fresh "Text" in
  destruct (code_cases e)
    as [-> | [-> | [-> | [-> | [-> | [-> | [-> | [-> | [-> | [U T]]]]]]]]]].

Lemma to_string_unknown_only_unnamed (e : ProviderError.t) :
  to_string e = Some "UNKNOWN_PROVIDER_ERROR" -> ProviderError.named e = false.
Proof.
  by_code e; intros Q; first [ exact Unnamed | discriminate Q ].
Qed.

Lemma to_string_inj_named (a b : ProviderError.t) :
  ProviderError.named a = true -> ProviderError.named b = true ->
  to_string a = to_string b -> a = b.
Proof.
  intros Na Nb.
  by_code a; try congruence; by_code b; try congruence;
    intros Q; first [ reflexivity | discriminate Q ].
Qed.

(** X1: two codes print alike exactly when they are the same code or
    are both codes that no enumerator names. *)
Theorem to_string_separates_codes (a b : ProviderError.t) :
  to_string a = to_string b <->
  a = b \/ (ProviderError.named a = false /\ ProviderError.named b = false).
Proof.
  split.
  - intros Q.
    destruct (ProviderError.named a) eqn:Na, (ProviderError.named b) eqn:Nb.
    + left. now apply to_string_inj_named.
    + apply to_string_unnamed in Nb. rewrite Nb in Q.
      apply to_string_unknown_only_unnamed in Q. congruence.
    + apply to_string_unnamed in Na. rewrite Na in Q. symmetry in Q.
      apply to_string_unknown_only_unnamed in Q. congruence.
    + now right.
  - intros [-> | [Na Nb]]; [ reflexivity | ].
    now rewrite (to_string_unnamed a Na), (to_string_unnamed b Nb).
Qed.

(** X2: the text [UNKNOWN_PROVIDER_ERROR] comes out exactly for the
    values no enumerator names, that is for the values from 9 up; no
    enumerator is ever reported as unknown. *)
Theorem unknown_text_iff_unnamed (e : ProviderError.t) :
  (to_string e = Some "UNKNOWN_PROVIDER_ERROR" <->
   ProviderError.named e = false) /\
  (to_string e = Some "UNKNOWN_PROVIDER_ERROR" <-> 9 <= e) /\
  ProviderError.enumerator "UNKNOWN_PROVIDER_ERROR" = None.
Proof.
  assert (K : to_string e = Some "UNKNOWN_PROVIDER_ERROR" <->
              ProviderError.named e = false).
  { split; [ apply to_string_unknown_only_unnamed | apply to_string_unnamed ]. }
  split; [ exact K | ].
  split; [ now rewrite K, unnamed_range | reflexivity ].
Qed.

(** X3: looking the returned identifier up among the enumerators gives
    the code back when an enumerator names it, and nothing otherwise. *)
Theorem to_string_then_lookup (c : ProviderError.t) :
  enumerator_of (to_string c) =
  if ProviderError.named c then Some c else None.
Proof.
  by_code c; try reflexivity.
  now rewrite Text, Unnamed.
Qed.

(** X4: every returned string is a plain token: non-empty, made of
    upper-case letters and underscores only, at least 2 and at most 23
    characters long. *)
Theorem to_string_is_a_short_token (e : ProviderError.t) :
  exists s, to_string e = Some s /\
            is_token s = true /\
            (2 <= String.length s <= 23)%nat.
Proof.
  by_code e;
    (eexists; split; [ first [ exact Text | reflexivity ] | ];
     split; [ reflexivity | simpl; lia ]).
Qed.

(** X5: a result is [ok()] exactly when its code prints as [OK]. *)
Theorem ok_iff_prints_OK (r : ProviderResult.t) :
  ProviderResult.ok r = true <-> to_string (ProviderResult.code r) = Some "OK".
Proof.
  destruct r as [c]. unfold ProviderResult.ok. simpl.
  by_code c; try (split; intros Q; first [ reflexivity | discriminate Q ]).
  rewrite Text. apply unnamed_range in Unnamed. split; intros Q.
  - apply N.eqb_eq in Q. unfold ProviderError.OK in Q. lia.
  - discriminate Q.
Qed.

(** X6: the returned string begins with [ERR_] exactly for the eight
    enumerators other than [OK]; so for a result whose code an enumerator
    names, the text begins with [ERR_] exactly when the result is not
    [ok()]. *)
Theorem err_prefix_iff_named_failure (r : ProviderResult.t) :
  begins_with "ERR_" (to_string (ProviderResult.code r)) =
  ProviderError.named (ProviderResult.code r) && negb (ProviderResult.ok r).
Proof.
  destruct r as [c]. unfold ProviderResult.ok. simpl.
  by_code c; try reflexivity.
  now rewrite Text, Unnamed.
Qed.

(** ** [release_now], called more than once *)

Section ReleaseSequences.

Variable World : Type.
Variable fn_body : ptr -> ptr -> ptr -> World -> World.

Lemma release_now_step (p : ptr * FrameView.t) (s : FrameView.state World) :
  FrameView.release_now fn_body (fst p) (snd p) s =
  if Release.hooked p
  then FrameView.State (FrameView.calls s ++ [Release.call_of p])
                       (Release.run fn_body (FrameView.world s) p)
  else s.
Proof.
  unfold FrameView.release_now, Release.hooked, FrameView.invoke.
  destruct (is_set _); reflexivity.
Qed.

Lemma each_calls (frames : list (ptr * FrameView.t)) :
  forall s : FrameView.state World,
    FrameView.calls (Release.each fn_body frames s) =
    (FrameView.calls s ++ map Release.call_of (filter Release.hooked frames))%list.
Proof.
  unfold Release.each.
  induction frames as [| p rest IH]; intros s; simpl.
  - now rewrite app_nil_r.
  - rewrite IH, release_now_step.
    destruct (Release.hooked p); simpl; [ | reflexivity ].
    now rewrite <- app_assoc.
Qed.

Lemma each_world (frames : list (ptr * FrameView.t)) :
  forall s : FrameView.state World,
    FrameView.world (Release.each fn_body frames s) =
    fold_left (Release.run fn_body) (filter Release.hooked frames) (FrameView.world s).
Proof.
  unfold Release.each.
  induction frames as [| p rest IH]; intros s; simpl; [ reflexivity | ].
  rewrite IH, release_now_step.
  destruct (Release.hooked p); reflexivity.
Qed.

Lemma hooked_calls_not_null (frames : list (ptr * FrameView.t)) :
  Forall (fun c => FrameView.callee c <> nullptr)
         (map Release.call_of (filter Release.hooked frames)).
Proof.
  apply Forall_forall. intros c I.
  apply in_map_iff in I. destruct I as [p [<- I]].
  apply filter_In in I. destruct I as [_ H].
  now apply is_set_spec in H.
Qed.

Lemma release_calls_repeat (f frame : ptr) (c : FrameView.call) (k : nat) :
  FrameView.callee c = f -> FrameView.arg_frame c = frame ->
  FrameView.release_calls f frame (repeat c k) = k.
Proof.
  intros Hf Ha. unfold FrameView.release_calls.
  induction k as [| k IH]; simpl; [ reflexivity | ].
  rewrite Hf, Ha, !N.eqb_refl. simpl. now rewrite IH.
Qed.

Lemma fold_left_repeat {A B : Type} (f : A -> B -> A) (x : B) (k : nat) :
  forall a, fold_left f (repeat x k) a = Nat.iter k (fun a' => f a' x) a.
Proof.
  induction k as [| k IH]; intros a; [ reflexivity | ].
  simpl repeat. simpl fold_left. rewrite IH.
  symmetry. exact (Nat.iter_succ_r k A (fun a' => f a' x) a).
Qed.

Lemma filter_repeat_true {A : Type} (h : A -> bool) (x : A) (k : nat) :
  h x = true -> filter h (repeat x k) = repeat x k.
Proof.
  intros H. induction k as [| k IH]; simpl; [ reflexivity | ].
  now rewrite H, IH.
Qed.



(** X9: whatever the frame, [release_now] keeps the calls made so far in
    place, adds at most one, and adds none but the call to the stored
    hook for this frame; the log stays the same exactly when the hook is
    null; and if no earlier call went through a null pointer, none does
    afterwards. *)
Theorem release_now_log_discipline
    (this : ptr) (self : FrameView.t) (s : FrameView.state World) :
  let s' := FrameView.release_now fn_body this self s in
  firstn (List.length (FrameView.calls s)) (FrameView.calls s')
    = FrameView.calls s /\
  (List.length (FrameView.calls s') <= S (List.length (FrameView.calls s)))%nat /\
  (forall c, In c (FrameView.calls s') ->
     In c (FrameView.calls s) \/
     c = FrameView.Call (FrameView.release self)
                        (FrameView.release_user self) this) /\
  (FrameView.calls s' = FrameView.calls s <->
   FrameView.release self = nullptr) /\
  (Forall (fun c => FrameView.callee c <> nullptr) (FrameView.calls s) ->
   Forall (fun c => FrameView.callee c <> nullptr) (FrameView.calls s')).
Proof.
  intros s'. subst s'.
  pose proof (release_now_step (this, self) s) as Step.
  cbn [fst snd] in Step. rewrite Step. clear Step.
  pose proof (is_set_spec (FrameView.release self)) as Spec.
  unfold Release.hooked, Release.call_of, Release.run. cbn [fst snd].
  destruct (is_set (FrameView.release self)); simpl.
  - assert (Hn : FrameView.release self <> nullptr) by now apply Spec.
    split; [ now rewrite firstn_app, firstn_all, Nat.sub_diag, app_nil_r | ].
    split; [ rewrite length_app; simpl; lia | ].
    split.
    { intros c I. apply in_app_or in I. destruct I as [I | [<- | []]];
        [ now left | now right ]. }
    split.
    { split; [ | contradiction ].
      intros Q. apply (f_equal (@List.length _)) in Q.
      rewrite length_app in Q. simpl in Q. lia. }
    intros F. apply Forall_app. split; [ exact F | ].
    constructor; [ exact Hn | constructor ].
  - split; [ apply firstn_all | ].
    split; [ lia | ].
    split; [ now left | ].
    split.
    { split; [ intros _ | reflexivity ].
      destruct (N.eq_dec (FrameView.release self) nullptr) as [E | E];
        [ exact E | ].
      apply Spec in E. discriminate E. }
    trivial.
Qed.

End ReleaseSequences.


(** ** The callback declarations *)

(** X10: every callback of the sink returns [void]; the callbacks that
    report an error are [on_stream_stopped], [on_capture_failed],
    [on_device_error] and [on_stream_error], and each of them takes
    exactly a 64-bit id followed by the [ProviderError]; no method of the
    provider interface takes a [ProviderError]. *)
Theorem callbacks_return_void_and_scope_errors :
  Forall (fun m => returns_void m = true /\
                   (reports_error m = true -> scoped_error_signature m = true))
         IProviderCallbacks.methods /\
  map m_name (filter reports_error IProviderCallbacks.methods) =
    [ "on_stream_stopped"; "on_capture_failed";
      "on_device_error"; "on_stream_error" ] /\
  Forall (fun m => reports_error m = false) ICameraProvider.methods.
Proof.
  split; [ | split; [ reflexivity | ] ].
  - repeat constructor; intros Q; first [ reflexivity | discriminate Q ].
  - repeat constructor.
Qed.
